(** * fastapi-throttling: the throttling middleware, embedded and verified

    Source: [src/fastapi_throttling/throttle.py].

    The middleware keeps one request counter per identifier (client address
    or access token) in a Redis server.  The Redis server, the Starlette
    [Headers] mapping and the ASGI callables are collaborators outside the
    repository; they are modelled here only as far as the middleware uses
    them:

    - the counter store is a finite map from keys to integer counters with an
      optional time to live, driven by the three commands the middleware
      issues ([GET], [SET ... EX], [INCR]); every command is also appended to
      a log, so that "this request did not touch the store" is a statement
      about the log;
    - the header list of a scope is an association list read by first match
      on the lower-cased name, as [Headers.get] does;
    - [await self.app(...)] and [await response(...)] are the two ways a call
      can end, recorded in the [outcome] of the call with their arguments.

    Calls are modelled one after the other: the interleaving of concurrent
    requests is not part of this development. *)

From Stdlib Require Import ZArith String Ascii List Lia.
From stdpp Require Import gmap strings list fin_maps.

Local Open Scope string_scope.
Local Open Scope list_scope.
Local Open Scope Z_scope.

(** ** The counter store (Redis) *)

(** A counter record: the stored count and the remaining time to live
    ([None]: the key never expires). *)
Record counter := Counter { value : Z; ttl : option Z }.

(** The commands the middleware sends to the store. *)
Inductive redis_cmd :=
| GET (key : string)
| SET (key : string) (v : Z) (ex : Z)
| INCR (key : string).

(** The key a command addresses. *)
Definition cmd_key (c : redis_cmd) : string :=
  match c with
  | GET k => k
  | SET k _ _ => k
  | INCR k => k
  end.

(** The store and the log of the commands it has received, oldest first. *)
Record world := World { db : gmap string counter; log : list redis_cmd }.

(** Store-passing computations. *)
Definition M (A : Type) : Type := world -> A * world.

Definition ret {A} (a : A) : M A := fun w => (a, w).

Definition bind {A B} (m : M A) (k : A -> M B) : M B :=
  fun w => let (a, w') := m w in k a w'.

Notation "'let!' x := m 'in' k" := (bind m (fun x => k))
  (at level 10, x name, m at level 200, k at level 200,
   format "'[v' 'let!'  x  :=  m  'in' '/' k ']'").

Definition issue (c : redis_cmd) (d : gmap string counter) (w : world) : world :=
  World d (log w ++ [c]).

(** The commands received between an earlier world [w] and a later [w']. *)
Definition issued (w w' : world) : list redis_cmd :=
  drop (length (log w)) (log w').

(** [redis.get(key)]: the stored count, or [None] when there is no record. *)
Definition redis_get (key : string) : M (option Z) :=
  fun w => (value <$> db w !! key, issue (GET key) (db w) w).

(** [redis.set(key, v, ex=ex)]: (re)creates the record with a fresh expiry. *)
Definition redis_set (key : string) (v ex : Z) : M unit :=
  fun w => (tt, issue (SET key v ex) (<[key := Counter v (Some ex)]> (db w)) w).

(** [redis.incr(key)]: adds one and keeps the time to live; a missing key
    counts as 0 and is created without expiry.  Returns the new count. *)
Definition incr_counter (o : option counter) : counter :=
  match o with
  | Some c => Counter (value c + 1) (ttl c)
  | None => Counter 1 None
  end.

Definition redis_incr (key : string) : M Z :=
  fun w =>
    let c := incr_counter (db w !! key) in
    (value c, issue (INCR key) (<[key := c]> (db w)) w).

(** ** Requests and responses *)

(** The part of an ASGI scope the middleware reads: [scope["type"]],
    [scope["client"]] (a [(host, port)] pair, or [None]) and the header
    list. *)
Record Scope := {
  scope_type : string;
  client : option (string * Z);
  headers : list (string * string)
}.

Record Response := { status_code : Z; content : list (string * string) }.

(** [ThrottlingResponse()] *)
Definition ThrottlingResponse : Response :=
  {| status_code := 429; content := [("detail", "Too Many Requests")] |}.

(** The exception the middleware's own code is modelled to raise: the
    [TypeError] of subscripting [None] in [scope["client"][0]].  A scope
    with no "client" key at all ([KeyError]) and exceptions raised by the
    store client are not modelled, so the model does not list every way a
    call can fail. *)
Inductive exn := TypeError.

Inductive result (A : Type) :=
| Ok (a : A)
| Raise (e : exn).
Arguments Ok {A} a.
Arguments Raise {A} e.

(** [str.lower] on ASCII letters. *)
Definition lower_ascii (c : ascii) : ascii :=
  let n := nat_of_ascii c in
  if ((65 <=? n) && (n <=? 90))%nat then ascii_of_nat (n + 32) else c.

Fixpoint lower (s : string) : string :=
  match s with
  | EmptyString => EmptyString
  | String c s' => String (lower_ascii c) (lower s')
  end.

(** [Headers.__getitem__]: the value of the first header whose name is the
    lower-cased key. *)
Fixpoint headers_getitem (hs : list (string * string)) (key : string) : option string :=
  match hs with
  | [] => None
  | (k, v) :: hs' => if String.eqb k (lower key) then Some v else headers_getitem hs' key
  end.

(** [Headers.get(key, default)] *)
Definition headers_get (hs : list (string * string)) (key : string)
    (default : option string) : option string :=
  match headers_getitem hs key with
  | Some v => Some v
  | None => default
  end.

(** Python truthiness of an [str | None]. *)
Definition truthy (o : option string) : bool :=
  match o with
  | None => false
  | Some EmptyString => false
  | Some (String _ _) => true
  end.

(** [next(iter(scope["client"][0]), None)]: subscripting [None] raises;
    iterating a string yields its characters, so the result is the first
    character of the host, or [None] for the empty host. *)
Definition peer_default (scope : Scope) : result (option string) :=
  match client scope with
  | None => Raise TypeError
  | Some (host, _) =>
      Ok match host with
         | EmptyString => None
         | String c _ => Some (String c EmptyString)
         end
  end.

(** [headers.get("x-forwarded-for", next(iter(scope["client"][0]), None))]:
    the default is an argument, so it is evaluated before the lookup. *)
Definition client_ip_of (scope : Scope) : result (option string) :=
  match peer_default scope with
  | Raise e => Raise e
  | Ok default => Ok (headers_get (headers scope) "x-forwarded-for" default)
  end.

(** ** The middleware *)

Section Middleware.

(** The ASGI application, the [receive] and [send] callables and the Redis
    client handle are opaque to the middleware. *)
Context {ASGIApp Receive Send Redis : Type}.

(** [Redis()]: the client built when none is supplied. *)
Variable Redis_default : Redis.

Record ThrottlingMiddleware := {
  app : ASGIApp;
  token_header : string;
  limit : Z;
  window : Z;
  redis : Redis
}.

(** [ThrottlingMiddleware.__init__].  A client object is always truthy,
    so [not self.redis] holds exactly for [None]. *)
Definition init (app : ASGIApp) (limit window : Z) (token_header : string)
    (redis : option Redis) : result ThrottlingMiddleware :=
  Ok {| app := app;
        token_header := token_header;
        limit := limit;
        window := window;
        redis := match redis with Some r => r | None => Redis_default end |}.

(** How a call of the middleware ends. *)
Inductive outcome :=
| Downstream (a : ASGIApp) (scope : Scope) (receive : Receive) (send : Send)
| Respond (r : Response) (scope : Scope) (receive : Receive) (send : Send)
| Raises (e : exn).

Variable self : ThrottlingMiddleware.

(** [ThrottlingMiddleware.has_exceeded_rate_limit].  The store holds
    integer counts, so [int(current_count)] is the count itself. *)
Definition has_exceeded_rate_limit (identifier : string) : M bool :=
  let! current_count := redis_get identifier in
  match current_count with
  | None =>
      let! _ := redis_set identifier 1 (window self) in
      ret false
  | Some n =>
      if n <? limit self then
        let! _ := redis_incr identifier in
        ret false
      else ret true
  end.

(** [x and await self.has_exceeded_rate_limit(x)] *)
Definition and_exceeded (x : option string) : M bool :=
  match x with
  | Some s => if truthy x then has_exceeded_rate_limit s else ret false
  | None => ret false
  end.

(** [ThrottlingMiddleware.__call__] *)
Definition call (scope : Scope) (receive : Receive) (send : Send) : M outcome :=
  if negb (String.eqb (scope_type scope) "http") then
    ret (Downstream (app self) scope receive send)
  else
    match client_ip_of scope with
    | Raise e => ret (Raises e)
    | Ok client_ip =>
        let! by_ip := and_exceeded client_ip in
        if by_ip then ret (Respond ThrottlingResponse scope receive send)
        else
          let token := headers_get (headers scope) (token_header self) None in
          let! by_token := and_exceeded token in
          if by_token then ret (Respond ThrottlingResponse scope receive send)
          else ret (Downstream (app self) scope receive send)
    end.

(** [n] rate checks for the same identifier, one after the other; the
    decisions in order. *)
Fixpoint burst (identifier : string) (n : nat) : M (list bool) :=
  match n with
  | O => ret []
  | S n' =>
      let! d := has_exceeded_rate_limit identifier in
      let! ds := burst identifier n' in
      ret (d :: ds)
  end.

End Middleware.

(** ** Sample inputs *)

(** A middleware with the default window and header name; the opaque
    application, callables and client are named by strings. *)
Definition sample_middleware (lim : Z) : @ThrottlingMiddleware string string :=
  {| app := "downstream";
     token_header := "Authorization";
     limit := lim;
     window := 60;
     redis := "redis://localhost:6379" |}.

Definition empty_world : world := World ∅ [].

Definition http_scope (peer : option (string * Z))
    (hs : list (string * string)) : Scope :=
  {| scope_type := "http"; client := peer; headers := hs |}.

(** A store where ["10.0.0.7"] has used up a limit of 2 and ["tok"] has
    one request counted. *)
Definition busy_world : world :=
  World (<["10.0.0.7" := Counter 2 (Some 60)]>
           (<["tok" := Counter 1 (Some 60)]> ∅)) [].

(** A request that reaches the middleware straight from a local peer, with
    no forwarded-for header. *)
Definition scope_peer_only : Scope :=
  http_scope (Some ("127.0.0.1", 51234)) [].

(** A request on a transport that reports no peer ([scope["client"]] is
    [None], as for a Unix domain socket). *)
Definition scope_no_client : Scope := http_scope None [].

(** Two requests of two different clients: the first is counted by the
    forwarded address "abc", the second carries the access token "abc". *)
Definition scope_forwarded_abc : Scope :=
  http_scope (Some ("10.0.0.1", 40000)) [("x-forwarded-for", "abc")].

Definition scope_token_abc : Scope :=
  http_scope (Some ("10.0.0.2", 40001))
             [("x-forwarded-for", "10.0.0.2"); ("authorization", "abc")].

(** A request from the forwarded address "10.0.0.7" with the token "tok",
    and one from a new address with the same token. *)
Definition scope_busy : Scope :=
  http_scope (Some ("10.0.0.7", 40002))
             [("x-forwarded-for", "10.0.0.7"); ("authorization", "tok")].

Definition scope_new_address : Scope :=
  http_scope (Some ("10.0.0.9", 40003))
             [("x-forwarded-for", "10.0.0.9"); ("authorization", "tok")].

(** The same peer and headers on a WebSocket connection. *)
Definition scope_websocket : Scope :=
  {| scope_type := "websocket";
     client := Some ("10.0.0.7", 40002);
     headers := [("x-forwarded-for", "10.0.0.7"); ("authorization", "tok")] |}.

(** A request from the peer of [scope_busy] with an empty forwarded-for
    header, with and without a token. *)
Definition scope_empty_forwarded : Scope :=
  http_scope (Some ("10.0.0.7", 40002))
             [("x-forwarded-for", ""); ("authorization", "tok")].

Definition scope_empty_forwarded_no_token : Scope :=
  http_scope (Some ("10.0.0.7", 40002)) [("x-forwarded-for", "")].

(** A request whose token is the string of its forwarded address. *)
Definition scope_same_string : Scope :=
  http_scope (Some ("10.0.0.1", 40000))
             [("x-forwarded-for", "abc"); ("authorization", "abc")].

(** A forwarded request on a transport that reports no peer. *)
Definition scope_no_client_forwarded : Scope :=
  http_scope None [("x-forwarded-for", "10.0.0.7")].

(** Requests on a transport that reports no peer, from the forwarded
    address and with the token of [scope_busy]. *)
Definition scope_no_client_busy : Scope :=
  http_scope None [("x-forwarded-for", "10.0.0.7"); ("authorization", "tok")].

Definition scope_no_client_token : Scope :=
  http_scope None [("authorization", "tok")].

(** Two requests in a row. *)
Definition sample_requests : list (Scope * string * string) :=
  [(scope_forwarded_abc, "receive", "send");
   (scope_token_abc, "receive", "send")].

(** ** Notions used in the statements about sequences of checks and calls *)

(** Whether a call ended in a response of the middleware itself. *)
Definition rejected {ASGIApp Receive Send : Type}
    (o : @outcome ASGIApp Receive Send) : bool :=
  match o with
  | Respond _ _ _ _ => true
  | _ => false
  end.

(** How many further rate checks are allowed for an identifier whose record
    is [o]: the first check of an identifier without a record is allowed
    whatever the limit is, a check on a record is allowed while the count is
    below the limit. *)
Definition quota {ASGIApp Redis : Type}
    (self : @ThrottlingMiddleware ASGIApp Redis) (o : option counter) : nat :=
  match o with
  | None => Z.to_nat (Z.max 1 (limit self))
  | Some c => Z.to_nat (limit self - value c)
  end.

(** The record of an identifier after [n] rate checks in a row, from the
    record [o] before them. *)
Definition counted {ASGIApp Redis : Type}
    (self : @ThrottlingMiddleware ASGIApp Redis) (o : option counter)
    (n : nat) : option counter :=
  match n with
  | O => o
  | S _ =>
      Some match o with
           | None =>
               Counter (Z.max 1 (Z.min (Z.of_nat n) (limit self)))
                       (Some (window self))
           | Some c =>
               Counter (Z.max (value c)
                              (Z.min (value c + Z.of_nat n) (limit self)))
                       (ttl c)
           end
  end.

(** Requests served one after the other on the same store. *)
Fixpoint serve {ASGIApp Receive Send Redis : Type}
    (self : @ThrottlingMiddleware ASGIApp Redis)
    (requests : list (Scope * Receive * Send))
    : M (list (@outcome ASGIApp Receive Send)) :=
  match requests with
  | [] => ret []
  | (scope, receive, send) :: rest =>
      let! o := call self scope receive send in
      let! os := serve self rest in
      ret (o :: os)
  end.

(** Every record was created by the middleware and is within its limit. *)
Definition well_counted {ASGIApp Redis : Type}
    (self : @ThrottlingMiddleware ASGIApp Redis) (w : world) : Prop :=
  forall k c, db w !! k = Some c ->
    ttl c = Some (window self) /\ 1 <= value c <= Z.max 1 (limit self).

(** From [w] to [w'] no record was removed or given another expiry, and no
    count went down or rose above both its old value and the limit. *)
Definition kept {ASGIApp Redis : Type}
    (self : @ThrottlingMiddleware ASGIApp Redis) (w w' : world) : Prop :=
  forall k c, db w !! k = Some c ->
    exists c', db w' !! k = Some c' /\ ttl c' = ttl c /\
               value c <= value c' <= Z.max (value c) (limit self).

(** From [w] to [w'] the record of [k] stayed as it was and no command
    addressed [k]. *)
Definition untouched (k : string) (w w' : world) : Prop :=
  db w' !! k = db w !! k /\
  exists cs, log w' = log w ++ cs /\ Forall (fun cmd => cmd_key cmd <> k) cs.

(** ** One rate check, case by case *)

Section RateCheck.

Context {ASGIApp Redis : Type}.
Variable self : @ThrottlingMiddleware ASGIApp Redis.

Lemma has_exceeded_absent (identifier : string) (w : world) :
  db w !! identifier = None ->
  has_exceeded_rate_limit self identifier w =
    (false,
     World (<[identifier := Counter 1 (Some (window self))]> (db w))
           (log w ++ [GET identifier; SET identifier 1 (window self)])).
Proof.
  intros Hnone.
  unfold has_exceeded_rate_limit, bind, redis_get, redis_set, ret, issue.
  rewrite Hnone. cbn. by rewrite <- app_assoc.
Qed.

Lemma has_exceeded_under (identifier : string) (w : world) (c : counter) :
  db w !! identifier = Some c ->
  value c < limit self ->
  has_exceeded_rate_limit self identifier w =
    (false,
     World (<[identifier := Counter (value c + 1) (ttl c)]> (db w))
           (log w ++ [GET identifier; INCR identifier])).
Proof.
  intros Hsome Hlt.
  unfold has_exceeded_rate_limit, bind, redis_get, redis_incr, ret, issue.
  rewrite Hsome. cbn.
  destruct (Z.ltb_spec (value c) (limit self)) as [_|Hge]; [|lia].
  cbn. rewrite Hsome. cbn. by rewrite <- app_assoc.
Qed.

Lemma has_exceeded_over (identifier : string) (w : world) (c : counter) :
  db w !! identifier = Some c ->
  limit self <= value c ->
  has_exceeded_rate_limit self identifier w =
    (true, World (db w) (log w ++ [GET identifier])).
Proof.
  intros Hsome Hge.
  unfold has_exceeded_rate_limit, bind, redis_get, ret, issue.
  rewrite Hsome. cbn.
  destruct (Z.ltb_spec (value c) (limit self)) as [Hlt|_]; [lia|done].
Qed.

(** C1. One rate check, for any identifier and any store: with no record
    it stores the count 1 with expiry [window] and allows; with a record
    below the limit it adds one to the count, keeps the expiry and allows;
    with a record at or above the limit it denies.  The store is given as
    a whole, so every other key is seen to stay as it was. *)
Theorem has_exceeded_rate_limit_cases (identifier : string) (w : world) :
  (db w !! identifier = None ->
     fst (has_exceeded_rate_limit self identifier w) = false /\
     db (snd (has_exceeded_rate_limit self identifier w)) =
       <[identifier := Counter 1 (Some (window self))]> (db w)) /\
  (forall c, db w !! identifier = Some c -> value c < limit self ->
     fst (has_exceeded_rate_limit self identifier w) = false /\
     db (snd (has_exceeded_rate_limit self identifier w)) =
       <[identifier := Counter (value c + 1) (ttl c)]> (db w)) /\
  (forall c, db w !! identifier = Some c -> limit self <= value c ->
     fst (has_exceeded_rate_limit self identifier w) = true).
Proof.
  split; [|split].
  - intros Hnone. by rewrite has_exceeded_absent.
  - intros c Hsome Hlt. by rewrite (has_exceeded_under _ _ c).
  - intros c Hsome Hge. by rewrite (has_exceeded_over _ _ c).
Qed.

(** *** Bursts *)

Lemma burst_step (identifier : string) (n : nat) (w w1 wn : world)
    (d : bool) (ds : list bool) :
  has_exceeded_rate_limit self identifier w = (d, w1) ->
  burst self identifier n w1 = (ds, wn) ->
  burst self identifier (S n) w = (d :: ds, wn).
Proof.
  intros Hd Hds. cbn [burst]. unfold bind. by rewrite Hd, Hds.
Qed.

Lemma burst_over (identifier : string) (n : nat) :
  forall (w : world) (c : counter),
  db w !! identifier = Some c ->
  limit self <= value c ->
  exists wn, burst self identifier n w = (replicate n true, wn) /\ db wn = db w.
Proof.
  induction n as [|n IH]; intros w c Hsome Hge.
  - by exists w.
  - destruct (IH (World (db w) (log w ++ [GET identifier])) c Hsome Hge)
      as (wn & Hds & Hdb).
    exists wn. split; [|done].
    eapply burst_step; [by apply (has_exceeded_over _ _ c)|done].
Qed.

Lemma burst_under (identifier : string) (k m : nat) :
  forall (w : world) (c : counter),
  db w !! identifier = Some c ->
  value c + Z.of_nat k = limit self ->
  exists wn,
    burst self identifier (k + m) w =
      (replicate k false ++ replicate m true, wn).
Proof.
  induction k as [|k IH]; intros w c Hsome Hk.
  - destruct (burst_over identifier m w c Hsome) as (wn & Hds & _); [lia|].
    by exists wn.
  - set (c1 := Counter (value c + 1) (ttl c)).
    set (w1 := World (<[identifier := c1]> (db w))
                     (log w ++ [GET identifier; INCR identifier])).
    destruct (IH w1 c1) as (wn & Hds).
    + subst w1. cbn. apply lookup_insert_eq.
    + subst c1. cbn. lia.
    + exists wn. cbn [Nat.add replicate app].
      eapply burst_step; [|exact Hds].
      apply has_exceeded_under; [done|lia].
Qed.

Lemma burst_fresh (identifier : string) (k m : nat) (w : world) :
  db w !! identifier = None ->
  Z.of_nat (S k) = limit self ->
  fst (burst self identifier (S k + m) w) =
    replicate (S k) false ++ replicate m true.
Proof.
  intros Hnone Hk.
  set (c1 := Counter 1 (Some (window self))).
  set (w1 := World (<[identifier := c1]> (db w))
                   (log w ++ [GET identifier; SET identifier 1 (window self)])).
  destruct (burst_under identifier k m w1 c1) as (wn & Hds).
  - subst w1. cbn. apply lookup_insert_eq.
  - subst c1. cbn. lia.
  - cbn [Nat.add replicate app].
    erewrite burst_step; [done| |exact Hds].
    by apply has_exceeded_absent.
Qed.

(** C2. With a limit N >= 1 and an identifier that has no record, N + 1
    rate checks in a row allow the first N and deny the last; with limit 1
    the first check is allowed and every later one is denied, however
    many follow. *)
Theorem burst_allows_limit_then_denies (identifier : string) (w : world) :
  1 <= limit self ->
  db w !! identifier = None ->
  fst (burst self identifier (Z.to_nat (limit self) + 1) w) =
    replicate (Z.to_nat (limit self)) false ++ [true] /\
  (limit self = 1 ->
   forall n, fst (burst self identifier (S n) w) = false :: replicate n true).
Proof.
  intros Hpos Hnone. split.
  - destruct (Z.to_nat (limit self)) as [|k] eqn:Hk; [lia|].
    apply (burst_fresh identifier k 1 w Hnone). lia.
  - intros Hone n.
    apply (burst_fresh identifier 0 n w Hnone). lia.
Qed.

(** C5. A rate check for an identifier whose count is at or above the
    limit denies and leaves the store as it was: no increment, no change
    of expiry, no other key touched.  Hence any number of such checks in a
    row are all denied and leave the store as it was. *)
Theorem denied_check_leaves_store (identifier : string) (w : world) (c : counter) :
  db w !! identifier = Some c ->
  limit self <= value c ->
  fst (has_exceeded_rate_limit self identifier w) = true /\
  db (snd (has_exceeded_rate_limit self identifier w)) = db w /\
  forall n,
    fst (burst self identifier n w) = replicate n true /\
    db (snd (burst self identifier n w)) = db w /\
    db (snd (burst self identifier n w)) !! identifier = Some c.
Proof.
  intros Hsome Hge.
  rewrite (has_exceeded_over _ _ c) by done.
  split; [done|]. split; [done|].
  intros n.
  destruct (burst_over identifier n w c Hsome Hge) as (wn & Hds & Hdb).
  rewrite Hds. cbn. by rewrite Hdb.
Qed.

(** *** Other keys *)

(** A rate check writes at most the record of its own identifier. *)
Lemma has_exceeded_frame (id1 id2 : string) (w : world) :
  id1 <> id2 ->
  db (snd (has_exceeded_rate_limit self id1 w)) !! id2 = db w !! id2.
Proof.
  intros Hne.
  destruct (db w !! id1) as [c|] eqn:Hc.
  - destruct (Z.lt_ge_cases (value c) (limit self)) as [Hlt|Hge].
    + rewrite (has_exceeded_under _ _ c) by done. cbn.
      by apply lookup_insert_ne.
    + by rewrite (has_exceeded_over _ _ c).
  - rewrite has_exceeded_absent by done. cbn.
    by apply lookup_insert_ne.
Qed.

(** The decision of a rate check and the record it leaves depend on the
    store only through the record of its identifier. *)
Lemma has_exceeded_local (identifier : string) (w1 w2 : world) :
  db w1 !! identifier = db w2 !! identifier ->
  fst (has_exceeded_rate_limit self identifier w1) =
    fst (has_exceeded_rate_limit self identifier w2) /\
  db (snd (has_exceeded_rate_limit self identifier w1)) !! identifier =
    db (snd (has_exceeded_rate_limit self identifier w2)) !! identifier.
Proof.
  intros Heq.
  destruct (db w2 !! identifier) as [c|] eqn:Hc.
  - destruct (Z.lt_ge_cases (value c) (limit self)) as [Hlt|Hge].
    + rewrite !(has_exceeded_under _ _ c) by done. cbn.
      by rewrite !lookup_insert_eq.
    + rewrite !(has_exceeded_over _ _ c) by done. cbn. split; congruence.
  - rewrite !has_exceeded_absent by done. cbn.
    by rewrite !lookup_insert_eq.
Qed.

(** C9, as the code has it.  Identifiers are counted under the identifier
    string alone, so two identifiers that differ as strings are
    independent: a rate check for one leaves the record of the other as it
    was, and changes neither the decision of the other's next check nor
    the record that check leaves. *)
Theorem distinct_identifiers_independent (id1 id2 : string) (w : world) :
  id1 <> id2 ->
  db (snd (has_exceeded_rate_limit self id1 w)) !! id2 = db w !! id2 /\
  fst (has_exceeded_rate_limit self id2
         (snd (has_exceeded_rate_limit self id1 w))) =
    fst (has_exceeded_rate_limit self id2 w) /\
  db (snd (has_exceeded_rate_limit self id2
             (snd (has_exceeded_rate_limit self id1 w)))) !! id2 =
    db (snd (has_exceeded_rate_limit self id2 w)) !! id2.
Proof.
  intros Hne.
  pose proof (has_exceeded_frame id1 id2 w Hne) as Hframe.
  split; [done|].
  by apply has_exceeded_local.
Qed.

End RateCheck.

(** ** The gate *)

Section Gate.

Context {ASGIApp Receive Send Redis : Type}.
Variable self : @ThrottlingMiddleware ASGIApp Redis.

Lemma truthy_Some (s : string) : s <> "" -> truthy (Some s) = true.
Proof. by destruct s. Qed.

Lemma and_exceeded_truthy (s : string) :
  s <> "" -> and_exceeded self (Some s) = has_exceeded_rate_limit self s.
Proof. intros Hs. unfold and_exceeded. by rewrite truthy_Some. Qed.

Lemma and_exceeded_falsy (x : option string) (w : world) :
  truthy x = false -> and_exceeded self x w = (false, w).
Proof. intros Hx. unfold and_exceeded. rewrite Hx. by destruct x. Qed.

Lemma http_eqb (scope : Scope) :
  scope_type scope = "http" ->
  negb (String.eqb (scope_type scope) "http") = false.
Proof. by intros ->. Qed.

Lemma issued_app (w : world) (d : gmap string counter) (cs : list redis_cmd) :
  issued w (World d (log w ++ cs)) = cs.
Proof. unfold issued. cbn. apply drop_app_length. Qed.

Lemma issued_refl (w : world) : issued w w = [].
Proof. unfold issued. apply drop_all. Qed.

(** C10. For a scope whose type is not "http" the middleware calls the
    downstream application with the same scope, receive and send, and
    does nothing else: the world is returned as it was, so no command
    reached the store, and the call does not end in a response of the
    middleware. *)
Theorem call_non_http_bypasses
    (scope : Scope) (receive : Receive) (send : Send) (w : world) :
  scope_type scope <> "http" ->
  call self scope receive send w =
    (Downstream (app self) scope receive send, w) /\
  issued w (snd (call self scope receive send w)) = [].
Proof.
  intros Hty. unfold call.
  destruct (String.eqb_spec (scope_type scope) "http") as [|_]; [done|].
  cbn. split; [done|apply issued_refl].
Qed.

(** X14. When the address identifier of an "http" request could be read
    (so the scope has a client) and is at or above the limit, the call ends
    in the rejection response and the token check is not evaluated: the one
    command sent to the store is the read of the address key, the store is
    as before, so the token's counter is what it was, and a token other
    than the address is not even read. *)
Theorem ip_denial_skips_token_check
    (scope : Scope) (receive : Receive) (send : Send) (w : world)
    (ip : string) (c : counter) :
  scope_type scope = "http" ->
  client_ip_of scope = Ok (Some ip) ->
  ip <> "" ->
  db w !! ip = Some c ->
  limit self <= value c ->
  call self scope receive send w =
    (Respond ThrottlingResponse scope receive send,
     World (db w) (log w ++ [GET ip])) /\
  forall token,
    headers_get (headers scope) (token_header self) None = Some token ->
    db (snd (call self scope receive send w)) !! token = db w !! token /\
    (token <> ip ->
     Forall (fun cmd => cmd_key cmd <> token)
            (issued w (snd (call self scope receive send w)))).
Proof.
  intros Hty Hip Hne Hsome Hge.
  assert (call self scope receive send w =
            (Respond ThrottlingResponse scope receive send,
             World (db w) (log w ++ [GET ip]))) as Hcall.
  { unfold call. rewrite (http_eqb _ Hty), Hip.
    unfold bind at 1. rewrite and_exceeded_truthy by done.
    by rewrite (has_exceeded_over _ _ _ c). }
  split; [done|].
  intros token _. rewrite Hcall. cbn [snd db]. split; [done|].
  intros Htok. rewrite issued_app.
  constructor; [|constructor]. cbn. congruence.
Qed.

(** X15. Every response the middleware itself sends has status 429 and
    body {"detail": "Too Many Requests"}; and on an "http" scope whose
    address could be read, a denying address check, or a denying token
    check after an allowing address check, ends the call in that response
    and not in a call of the downstream application. *)
Theorem denial_sends_429
    (scope : Scope) (receive : Receive) (send : Send) (w : world) :
  (forall r sc rc sd w',
     call self scope receive send w = (Respond r sc rc sd, w') ->
     status_code r = 429 /\
     content r = [("detail", "Too Many Requests")]) /\
  (forall client_ip w1,
     scope_type scope = "http" ->
     client_ip_of scope = Ok client_ip ->
     and_exceeded self client_ip w = (true, w1) ->
     call self scope receive send w =
       (Respond ThrottlingResponse scope receive send, w1)) /\
  (forall client_ip w1 w2,
     scope_type scope = "http" ->
     client_ip_of scope = Ok client_ip ->
     and_exceeded self client_ip w = (false, w1) ->
     and_exceeded self
       (headers_get (headers scope) (token_header self) None) w1 = (true, w2) ->
     call self scope receive send w =
       (Respond ThrottlingResponse scope receive send, w2)).
Proof.
  split; [|split].
  - intros r sc rc sd w'. unfold call.
    destruct (negb _); [discriminate|].
    destruct (client_ip_of scope) as [client_ip|e]; [|discriminate].
    unfold bind at 1.
    destruct (and_exceeded self client_ip w) as [[|] w1].
    + unfold ret. by intros [= <- _ _ _ _].
    + unfold bind at 1.
      destruct (and_exceeded self _ w1) as [[|] w2];
        unfold ret; [by intros [= <- _ _ _ _]|discriminate].
  - intros client_ip w1 Hty Hip Hden.
    unfold call. rewrite (http_eqb _ Hty), Hip.
    unfold bind at 1. by rewrite Hden.
  - intros client_ip w1 w2 Hty Hip Hok Hden.
    unfold call. rewrite (http_eqb _ Hty), Hip.
    unfold bind at 1. rewrite Hok.
    unfold bind at 1. by rewrite Hden.
Qed.

End Gate.

(** ** Construction *)

(** C8, as the code has it.  [__init__] checks nothing: for every limit and
    window, also a limit below 1 or a window of 0 or less, construction
    succeeds and the middleware holds the limit and the window it was
    given. *)
Theorem init_never_fails {ASGIApp Redis : Type} (Redis_default : Redis)
    (a : ASGIApp) (lim win : Z) (header : string) (handle : option Redis) :
  exists self,
    init Redis_default a lim win header handle = Ok self /\
    app self = a /\ limit self = lim /\ window self = win /\
    token_header self = header /\
    redis self = default Redis_default handle.
Proof. eexists. split; [reflexivity|]. by destruct handle. Qed.

(** C8 fails on the code: a limit of 0 with a window of 0 is accepted. *)
Lemma init_accepts_malformed_policy :
  (0 < 1 \/ 0 <= 0) /\
  forall e,
    init "redis://localhost:6379" "downstream" 0 0 "Authorization" None
      <> Raise e.
Proof. split; [lia|]. intros e. discriminate. Qed.

(** ** The address of a request *)

(** Without a forwarded-for header the identifier is the first character of
    the peer host, whatever follows it. *)
Lemma client_ip_without_forwarded_for
    (scope : Scope) (c : ascii) (rest : string) (port : Z) :
  headers_getitem (headers scope) "x-forwarded-for" = None ->
  client scope = Some (String c rest, port) ->
  client_ip_of scope = Ok (Some (String c "")).
Proof.
  intros Hh Hc. unfold client_ip_of, peer_default, headers_get.
  by rewrite Hc, Hh.
Qed.

(** C3 on the code: a request from peer 127.0.0.1 with no forwarded-for
    header is counted under the key "1", not under "127.0.0.1". *)
Theorem peer_address_cut_to_first_character :
  headers_getitem (headers scope_peer_only) "x-forwarded-for" = None /\
  client_ip_of scope_peer_only = Ok (Some "1") /\
  client_ip_of scope_peer_only <> Ok (Some "127.0.0.1") /\
  call (sample_middleware 100) scope_peer_only "receive" "send" empty_world =
    (Downstream "downstream" scope_peer_only "receive" "send",
     World {["1" := Counter 1 (Some 60)]} [GET "1"; SET "1" 1 60]).
Proof.
  split; [reflexivity|]. split; [reflexivity|]. split; [discriminate|].
  vm_compute. reflexivity.
Qed.

(** X13. A scope whose client is [None] makes the call raise before any
    identifier is looked at, whatever the headers are. *)
Lemma call_without_client_raises {ASGIApp Receive Send Redis : Type}
    (self : @ThrottlingMiddleware ASGIApp Redis)
    (scope : Scope) (receive : Receive) (send : Send) (w : world) :
  scope_type scope = "http" ->
  client scope = None ->
  call self scope receive send w = (Raises TypeError, w).
Proof.
  intros Hty Hc. unfold call, client_ip_of, peer_default.
  by rewrite (http_eqb _ Hty), Hc.
Qed.

(** With an empty peer host, a forwarded-for header that is absent or
    empty, and no token header, the call goes downstream and no command
    reaches the store. *)
Lemma call_empty_peer_forwards {ASGIApp Receive Send Redis : Type}
    (self : @ThrottlingMiddleware ASGIApp Redis)
    (scope : Scope) (receive : Receive) (send : Send) (w : world) (port : Z) :
  scope_type scope = "http" ->
  client scope = Some ("", port) ->
  truthy (headers_getitem (headers scope) "x-forwarded-for") = false ->
  headers_getitem (headers scope) (token_header self) = None ->
  call self scope receive send w = (Downstream (app self) scope receive send, w).
Proof.
  intros Hty Hc Hfwd Htok.
  unfold call, client_ip_of, peer_default, headers_get.
  rewrite (http_eqb _ Hty), Hc, Htok.
  unfold bind at 1. rewrite and_exceeded_falsy.
  - unfold bind. by rewrite and_exceeded_falsy.
  - by destruct (headers_getitem (headers scope) "x-forwarded-for").
Qed.

(** C4 on the code: with no forwarded-for header, no token header and a
    client of [None], the call raises [TypeError] and the request is not
    forwarded. *)
Theorem call_no_client_raises_type_error :
  headers scope_no_client = [] /\
  client scope_no_client = None /\
  call (sample_middleware 100) scope_no_client "receive" "send" empty_world =
    (Raises TypeError, empty_world).
Proof. repeat split. Qed.

(** C6 on the code: a request whose forwarded address is present and at
    the limit, on a scope whose client is [None], is not rejected: the call
    raises [TypeError] and no response is sent. *)
Theorem forwarded_address_over_limit_raises :
  headers_getitem (headers scope_no_client_busy) "x-forwarded-for" =
    Some "10.0.0.7" /\
  db busy_world !! "10.0.0.7" = Some (Counter 2 (Some 60)) /\
  limit (sample_middleware 2) <= 2 /\
  call (sample_middleware 2) scope_no_client_busy "receive" "send" busy_world =
    (Raises TypeError, busy_world) /\
  fst (call (sample_middleware 2) scope_no_client_busy
         "receive" "send" busy_world) <>
    Respond ThrottlingResponse scope_no_client_busy "receive" "send".
Proof.
  split; [reflexivity|]. split; [reflexivity|]. split; [cbn; lia|].
  split; [reflexivity|]. discriminate.
Qed.

(** C7 on the code: the rejection response is not the only way the
    middleware itself makes a request fail.  A request with a token at the
    limit, on a scope whose client is [None], ends in [TypeError]: neither
    the 429 response nor the downstream application. *)
Theorem gate_fails_without_429 :
  headers_get (headers scope_no_client_token) "Authorization" None =
    Some "tok" /\
  db busy_world !! "tok" = Some (Counter 1 (Some 60)) /\
  limit (sample_middleware 1) <= 1 /\
  call (sample_middleware 1) scope_no_client_token "receive" "send" busy_world =
    (Raises TypeError, busy_world) /\
  rejected (fst (call (sample_middleware 1) scope_no_client_token
                   "receive" "send" busy_world)) = false /\
  fst (call (sample_middleware 1) scope_no_client_token
         "receive" "send" busy_world) <>
    Downstream "downstream" scope_no_client_token "receive" "send".
Proof.
  split; [reflexivity|]. split; [reflexivity|]. split; [cbn; lia|].
  split; [reflexivity|]. split; [reflexivity|]. discriminate.
Qed.

(** ** Identifiers that are equal as strings *)

(** C9 fails on the code.  With limit 1: the request with token "abc" goes
    downstream on an empty store, and is rejected once another client's
    request has been counted under the forwarded address "abc". *)
Lemma equal_strings_share_one_counter :
  fst (call (sample_middleware 1) scope_token_abc "receive" "send" empty_world) =
    Downstream "downstream" scope_token_abc "receive" "send" /\
  fst (call (sample_middleware 1) scope_forwarded_abc "receive" "send" empty_world) =
    Downstream "downstream" scope_forwarded_abc "receive" "send" /\
  fst (call (sample_middleware 1) scope_token_abc "receive" "send"
         (snd (call (sample_middleware 1) scope_forwarded_abc
                 "receive" "send" empty_world))) =
    Respond ThrottlingResponse scope_token_abc "receive" "send".
Proof. vm_compute. repeat split. Qed.

(** ** The theorems at sample inputs *)

Lemma has_exceeded_rate_limit_cases_witness :
  (db empty_world !! "1.2.3.4" = None /\
   fst (has_exceeded_rate_limit (sample_middleware 2) "1.2.3.4" empty_world) = false /\
   db (snd (has_exceeded_rate_limit (sample_middleware 2) "1.2.3.4" empty_world)) =
     <["1.2.3.4" := Counter 1 (Some 60)]> ∅) /\
  (db busy_world !! "tok" = Some (Counter 1 (Some 60)) /\ 1 < 2 /\
   fst (has_exceeded_rate_limit (sample_middleware 2) "tok" busy_world) = false /\
   db (snd (has_exceeded_rate_limit (sample_middleware 2) "tok" busy_world)) =
     <["tok" := Counter 2 (Some 60)]> (db busy_world)) /\
  (db busy_world !! "10.0.0.7" = Some (Counter 2 (Some 60)) /\ 2 <= 2 /\
   fst (has_exceeded_rate_limit (sample_middleware 2) "10.0.0.7" busy_world) = true).
Proof.
  assert (db empty_world !! "1.2.3.4" = None) as H1 by reflexivity.
  assert (db busy_world !! "tok" = Some (Counter 1 (Some 60))) as H2
    by reflexivity.
  assert (db busy_world !! "10.0.0.7" = Some (Counter 2 (Some 60))) as H3
    by reflexivity.
  split; [|split].
  - split; [exact H1|].
    exact (proj1 (has_exceeded_rate_limit_cases
                    (sample_middleware 2) "1.2.3.4" empty_world) H1).
  - split; [exact H2|]. split; [lia|].
    refine (proj1 (proj2 (has_exceeded_rate_limit_cases
                            (sample_middleware 2) "tok" busy_world))
                  (Counter 1 (Some 60)) H2 _).
    cbn. lia.
  - split; [exact H3|]. split; [lia|].
    refine (proj2 (proj2 (has_exceeded_rate_limit_cases
                            (sample_middleware 2) "10.0.0.7" busy_world))
                  (Counter 2 (Some 60)) H3 _).
    cbn. lia.
Defined.

Lemma burst_allows_limit_then_denies_witness :
  1 <= limit (sample_middleware 2) /\
  db empty_world !! "1.2.3.4" = None /\
  fst (burst (sample_middleware 2) "1.2.3.4" 3 empty_world) =
    [false; false; true].
Proof.
  assert (1 <= limit (sample_middleware 2)) as Hlim by (cbn; lia).
  assert (db empty_world !! "1.2.3.4" = None) as Hnone by reflexivity.
  split; [exact Hlim|]. split; [exact Hnone|].
  exact (proj1 (burst_allows_limit_then_denies
                  (sample_middleware 2) "1.2.3.4" empty_world Hlim Hnone)).
Defined.

Lemma denied_check_leaves_store_witness :
  db busy_world !! "10.0.0.7" = Some (Counter 2 (Some 60)) /\
  limit (sample_middleware 2) <= 2 /\
  fst (has_exceeded_rate_limit (sample_middleware 2) "10.0.0.7" busy_world) = true /\
  db (snd (has_exceeded_rate_limit (sample_middleware 2) "10.0.0.7" busy_world)) =
    db busy_world /\
  fst (burst (sample_middleware 2) "10.0.0.7" 3 busy_world) = [true; true; true] /\
  db (snd (burst (sample_middleware 2) "10.0.0.7" 3 busy_world)) = db busy_world.
Proof.
  assert (db busy_world !! "10.0.0.7" = Some (Counter 2 (Some 60))) as Hsome
    by reflexivity.
  assert (limit (sample_middleware 2) <= value (Counter 2 (Some 60))) as Hge
    by (cbn; lia).
  destruct (denied_check_leaves_store (sample_middleware 2) "10.0.0.7"
              busy_world (Counter 2 (Some 60)) Hsome Hge) as (Hd & Hdb & Hn).
  destruct (Hn 3%nat) as (Hds & Hdbn & _).
  repeat split; assumption.
Defined.

Lemma distinct_identifiers_independent_witness :
  "10.0.0.7" <> "tok" /\
  db (snd (has_exceeded_rate_limit (sample_middleware 2) "10.0.0.7" busy_world))
    !! "tok" = Some (Counter 1 (Some 60)) /\
  fst (has_exceeded_rate_limit (sample_middleware 2) "tok"
         (snd (has_exceeded_rate_limit (sample_middleware 2) "10.0.0.7" busy_world))) =
    fst (has_exceeded_rate_limit (sample_middleware 2) "tok" busy_world).
Proof.
  assert ("10.0.0.7" <> "tok") as Hne by discriminate.
  destruct (distinct_identifiers_independent (sample_middleware 2)
              "10.0.0.7" "tok" busy_world Hne) as (Hrec & Hdec & _).
  split; [exact Hne|]. split; [exact Hrec|exact Hdec].
Defined.

Lemma call_non_http_bypasses_witness :
  scope_type scope_websocket <> "http" /\
  call (sample_middleware 2) scope_websocket "receive" "send" busy_world =
    (Downstream "downstream" scope_websocket "receive" "send", busy_world).
Proof.
  assert (scope_type scope_websocket <> "http") as Hty by discriminate.
  split; [exact Hty|].
  exact (proj1 (call_non_http_bypasses (sample_middleware 2) scope_websocket
                  "receive" "send" busy_world Hty)).
Defined.

Lemma ip_denial_skips_token_check_witness :
  scope_type scope_busy = "http" /\
  client_ip_of scope_busy = Ok (Some "10.0.0.7") /\
  "10.0.0.7" <> "" /\
  db busy_world !! "10.0.0.7" = Some (Counter 2 (Some 60)) /\
  limit (sample_middleware 2) <= 2 /\
  headers_get (headers scope_busy) "Authorization" None = Some "tok" /\
  call (sample_middleware 2) scope_busy "receive" "send" busy_world =
    (Respond ThrottlingResponse scope_busy "receive" "send",
     World (db busy_world) [GET "10.0.0.7"]) /\
  db (snd (call (sample_middleware 2) scope_busy "receive" "send" busy_world))
    !! "tok" = Some (Counter 1 (Some 60)).
Proof.
  assert (scope_type scope_busy = "http") as Hty by reflexivity.
  assert (client_ip_of scope_busy = Ok (Some "10.0.0.7")) as Hip by reflexivity.
  assert ("10.0.0.7" <> "") as Hne by discriminate.
  assert (db busy_world !! "10.0.0.7" = Some (Counter 2 (Some 60))) as Hsome
    by reflexivity.
  assert (limit (sample_middleware 2) <= value (Counter 2 (Some 60))) as Hge
    by (cbn; lia).
  assert (headers_get (headers scope_busy)
            (token_header (sample_middleware 2)) None = Some "tok") as Htok
    by reflexivity.
  destruct (ip_denial_skips_token_check (sample_middleware 2) scope_busy
              "receive" "send" busy_world "10.0.0.7" (Counter 2 (Some 60))
              Hty Hip Hne Hsome Hge) as (Hcall & Htoken).
  destruct (Htoken "tok" Htok) as (Hrec & _).
  repeat split; try assumption.
Defined.

Lemma denial_sends_429_witness :
  (scope_type scope_busy = "http" /\
   client_ip_of scope_busy = Ok (Some "10.0.0.7") /\
   call (sample_middleware 2) scope_busy "receive" "send" busy_world =
     (Respond ThrottlingResponse scope_busy "receive" "send",
      World (db busy_world) [GET "10.0.0.7"])) /\
  (scope_type scope_new_address = "http" /\
   client_ip_of scope_new_address = Ok (Some "10.0.0.9") /\
   fst (call (sample_middleware 1) scope_new_address "receive" "send" busy_world) =
     Respond ThrottlingResponse scope_new_address "receive" "send") /\
  status_code ThrottlingResponse = 429 /\
  content ThrottlingResponse = [("detail", "Too Many Requests")].
Proof.
  assert (scope_type scope_busy = "http") as Hty by reflexivity.
  assert (client_ip_of scope_busy = Ok (Some "10.0.0.7")) as Hip by reflexivity.
  assert (scope_type scope_new_address = "http") as Hty' by reflexivity.
  assert (client_ip_of scope_new_address = Ok (Some "10.0.0.9")) as Hip'
    by reflexivity.
  pose proof (denial_sends_429 (sample_middleware 2) scope_busy
                "receive" "send" busy_world) as (Hany & Hbyip & _).
  pose proof (denial_sends_429 (sample_middleware 1) scope_new_address
                "receive" "send" busy_world) as (_ & _ & Hbytoken).
  assert (call (sample_middleware 2) scope_busy "receive" "send" busy_world =
            (Respond ThrottlingResponse scope_busy "receive" "send",
             World (db busy_world) [GET "10.0.0.7"])) as Hcall.
  { apply (Hbyip (Some "10.0.0.7") _ Hty Hip). vm_compute. reflexivity. }
  split; [by repeat split|].
  split.
  - split; [exact Hty'|]. split; [exact Hip'|].
    erewrite (Hbytoken (Some "10.0.0.9") _ _ Hty' Hip').
    + reflexivity.
    + vm_compute. reflexivity.
    + vm_compute. reflexivity.
  - exact (Hany _ _ _ _ _ Hcall).
Defined.

(** ** Any number of rate checks in a row *)

Section Bursts.

Context {ASGIApp Redis : Type}.
Variable self : @ThrottlingMiddleware ASGIApp Redis.

Lemma quota_counted_1 (o : option counter) :
  quota self (counted self o 1) = (quota self o - 1)%nat.
Proof. destruct o as [c|]; cbn; lia. Qed.

Lemma counted_S (o : option counter) (n : nat) :
  counted self (counted self o 1) n = counted self o (S n).
Proof.
  destruct n as [|n]; [done|].
  destruct o as [c|]; cbn [counted value ttl]; do 2 f_equal; lia.
Qed.

(** One rate check in terms of [quota] and [counted]. *)
Lemma check_step (identifier : string) (w : world) :
  exists w1,
    has_exceeded_rate_limit self identifier w =
      (bool_decide (quota self (db w !! identifier) = 0%nat), w1) /\
    db w1 = partial_alter (fun o => counted self o 1) identifier (db w).
Proof.
  destruct (db w !! identifier) as [c|] eqn:Hc.
  - destruct (Z.lt_ge_cases (value c) (limit self)) as [Hlt|Hge].
    + eexists. split.
      * rewrite (has_exceeded_under _ _ _ c) by done.
        rewrite bool_decide_eq_false_2; [done|cbn; lia].
      * cbn. apply partial_alter_ext. intros o Ho.
        rewrite Hc in Ho. subst o. cbn. do 2 f_equal. lia.
    + eexists. split.
      * rewrite (has_exceeded_over _ _ _ c) by done.
        rewrite bool_decide_eq_true_2; [done|cbn; lia].
      * cbn. symmetry. apply partial_alter_id.
        rewrite Hc. cbn. destruct c as [v t]. cbn in *. do 2 f_equal. lia.
  - eexists. split.
    + rewrite has_exceeded_absent by done.
      rewrite bool_decide_eq_false_2; [done|cbn; lia].
    + cbn. apply partial_alter_ext. intros o Ho.
      rewrite Hc in Ho. subst o. cbn. do 2 f_equal. lia.
Qed.

Lemma burst_closed_form (identifier : string) (n : nat) :
  forall w : world,
  exists wn,
    burst self identifier n w =
      (replicate (n `min` quota self (db w !! identifier)) false ++
       replicate (n - quota self (db w !! identifier)) true, wn) /\
    db wn = partial_alter (fun o => counted self o n) identifier (db w).
Proof.
  induction n as [|n IH]; intros w.
  - exists w. split; [done|]. cbn. symmetry. by apply partial_alter_id.
  - destruct (check_step identifier w) as (w1 & Hstep & Hdb1).
    destruct (IH w1) as (wn & Hrest & Hdbn).
    exists wn. split.
    + rewrite (burst_step self identifier n w w1 wn _ _ Hstep Hrest).
      rewrite Hdb1, lookup_partial_alter_eq, quota_counted_1.
      destruct (quota self (db w !! identifier)) as [|q] eqn:Hq.
      * rewrite bool_decide_eq_true_2 by done.
        replace (n `min` (0 - 1))%nat with 0%nat by lia.
        by replace (n - (0 - 1))%nat with n by lia.
      * rewrite bool_decide_eq_false_2 by done.
        by replace (S q - 1)%nat with q by lia.
    + rewrite Hdbn, Hdb1, partial_alter_partial_alter_eq.
      apply partial_alter_ext. intros o _. cbn. apply counted_S.
Qed.

(** X1. Any number of rate checks in a row for one identifier, from any
    store and for any limit: the first [quota] of them are allowed and all
    later ones denied, where the quota is [limit - count] for an identifier
    with a record and [max 1 limit] for one without.  In particular no
    check is allowed after one was denied. *)
Theorem burst_decisions (identifier : string) (n : nat) (w : world) :
  fst (burst self identifier n w) =
    replicate (n `min` quota self (db w !! identifier)) false ++
    replicate (n - quota self (db w !! identifier)) true.
Proof.
  destruct (burst_closed_form identifier n w) as (wn & Hb & _).
  by rewrite Hb.
Qed.

(** X2. The store after [n] rate checks in a row for one identifier: its
    record has the count [max v (min (v + n) limit)] and the expiry it had
    before, or, when there was no record and [n > 0], the count
    [max 1 (min n limit)] and the expiry [window]; every other record is as
    it was. *)
Theorem burst_record (identifier : string) (n : nat) (w : world) :
  db (snd (burst self identifier n w)) !! identifier =
    counted self (db w !! identifier) n /\
  forall k, k <> identifier ->
    db (snd (burst self identifier n w)) !! k = db w !! k.
Proof.
  destruct (burst_closed_form identifier n w) as (wn & Hb & Hdb).
  rewrite Hb. cbn [snd]. rewrite Hdb. split.
  - by rewrite lookup_partial_alter_eq.
  - intros k Hk. by rewrite lookup_partial_alter_ne.
Qed.

(** X3. A limit of 0 or less does not close the gate: the first rate check
    of an identifier without a record is still allowed and stores the count
    1 with expiry [window]; every later check is denied and the count stays
    1. *)
Theorem nonpositive_limit_admits_first (identifier : string) (w : world) :
  limit self <= 0 ->
  db w !! identifier = None ->
  forall n,
    fst (burst self identifier (S n) w) = false :: replicate n true /\
    db (snd (burst self identifier (S n) w)) !! identifier =
      Some (Counter 1 (Some (window self))).
Proof.
  intros Hlim Hnone n.
  destruct (burst_closed_form identifier (S n) w) as (wn & Hb & Hdb).
  rewrite Hb. cbn [fst snd]. rewrite Hdb, lookup_partial_alter_eq, Hnone.
  assert (quota self None = 1%nat) as -> by (cbn; lia).
  split.
  - replace (S n `min` 1)%nat with 1%nat by lia.
    by replace (S n - 1)%nat with n by lia.
  - cbn. do 2 f_equal. lia.
Qed.

End Bursts.

(** ** A call and the store *)

Section CallAndStore.

Context {ASGIApp Receive Send Redis : Type}.
Variable self : @ThrottlingMiddleware ASGIApp Redis.

(** A call on an "http" scope whose address could be read: the address
    check, then the token check. *)
Lemma call_http (scope : Scope) (receive : Receive) (send : Send) (w : world)
    (client_ip : option string) :
  scope_type scope = "http" ->
  client_ip_of scope = Ok client_ip ->
  call self scope receive send w =
    let (by_ip, w1) := and_exceeded self client_ip w in
    if by_ip then (Respond ThrottlingResponse scope receive send, w1)
    else
      let (by_token, w2) := and_exceeded self (headers_get (headers scope) (token_header self) None) w1 in
      (if by_token then Respond ThrottlingResponse scope receive send
       else Downstream (app self) scope receive send, w2).
Proof.
  intros Hty Hip. unfold call. rewrite (http_eqb _ Hty), Hip.
  unfold bind, ret.
  destruct (and_exceeded self client_ip w) as [[|] w1]; [done|].
  by destruct (and_exceeded self _ w1) as [[|] w2].
Qed.

(** What every rate check preserves, every call preserves. *)
Lemma and_exceeded_preserves (P : world -> Prop) :
  (forall identifier w, P w -> P (snd (has_exceeded_rate_limit self identifier w))) ->
  forall x w, P w -> P (snd (and_exceeded self x w)).
Proof.
  intros Hcheck x w Hw. unfold and_exceeded.
  destruct x as [s|]; [|done].
  destruct (truthy (Some s)); [by apply Hcheck|done].
Qed.

Lemma call_preserves (P : world -> Prop) :
  (forall identifier w, P w -> P (snd (has_exceeded_rate_limit self identifier w))) ->
  forall (scope : Scope) (receive : Receive) (send : Send) w,
    P w -> P (snd (call self scope receive send w)).
Proof.
  intros Hcheck scope receive send w Hw. unfold call, ret.
  destruct (negb _); [done|].
  destruct (client_ip_of scope) as [client_ip|e]; [|done].
  pose proof (and_exceeded_preserves P Hcheck client_ip w Hw) as H1.
  unfold bind at 1.
  destruct (and_exceeded self client_ip w) as [[|] w1]; [done|].
  pose proof (and_exceeded_preserves P Hcheck (headers_get (headers scope) (token_header self) None) w1 H1) as H2.
  unfold bind.
  by destruct (and_exceeded self _ w1) as [[|] w2].
Qed.

Lemma serve_preserves (P : world -> Prop) :
  (forall identifier w, P w -> P (snd (has_exceeded_rate_limit self identifier w))) ->
  forall (requests : list (Scope * Receive * Send)) w,
    P w -> P (snd (serve self requests w)).
Proof.
  intros Hcheck requests.
  induction requests as [|[[scope receive] send] rest IH]; intros w Hw; [done|].
  cbn [serve]. unfold bind at 1.
  pose proof (call_preserves P Hcheck scope receive send w Hw) as H1.
  destruct (call self scope receive send w) as [o w1].
  unfold bind. specialize (IH w1 H1).
  by destruct (serve self rest w1) as [os wn].
Qed.

Lemma kept_refl (w : world) : kept self w w.
Proof. intros k c Hc. exists c. repeat split; [done|lia..]. Qed.

Lemma kept_trans (w1 w2 w3 : world) :
  kept self w1 w2 -> kept self w2 w3 -> kept self w1 w3.
Proof.
  intros H12 H23 k c Hc.
  destruct (H12 k c Hc) as (c2 & Hc2 & Httl2 & Hv2).
  destruct (H23 k c2 Hc2) as (c3 & Hc3 & Httl3 & Hv3).
  exists c3. split; [done|]. split; [congruence|lia].
Qed.

Lemma has_exceeded_kept (identifier : string) (w : world) :
  kept self w (snd (has_exceeded_rate_limit self identifier w)).
Proof.
  intros k c Hc.
  destruct (decide (k = identifier)) as [->|Hne].
  - destruct (Z.lt_ge_cases (value c) (limit self)) as [Hlt|Hge].
    + rewrite (has_exceeded_under _ _ _ c) by done. cbn.
      rewrite lookup_insert_eq. eexists. split; [done|]. cbn. split; [done|lia].
    + rewrite (has_exceeded_over _ _ _ c) by done. cbn.
      exists c. split; [done|]. split; [done|lia].
  - rewrite has_exceeded_frame by done.
    exists c. split; [done|]. split; [done|lia].
Qed.

Lemma has_exceeded_well_counted (identifier : string) (w : world) :
  well_counted self w ->
  well_counted self (snd (has_exceeded_rate_limit self identifier w)).
Proof.
  intros Hw k c'.
  destruct (decide (k = identifier)) as [->|Hne].
  - destruct (db w !! identifier) as [c|] eqn:Hc.
    + destruct (Hw _ _ Hc) as [Httl Hv].
      destruct (Z.lt_ge_cases (value c) (limit self)) as [Hlt|Hge].
      * rewrite (has_exceeded_under _ _ _ c) by done. cbn.
        rewrite lookup_insert_eq. intros [= <-]. cbn. split; [done|lia].
      * rewrite (has_exceeded_over _ _ _ c) by done. cbn.
        rewrite Hc. by intros [= <-].
    + rewrite has_exceeded_absent by done. cbn.
      rewrite lookup_insert_eq. intros [= <-]. cbn. split; [done|lia].
  - rewrite has_exceeded_frame by done. apply Hw.
Qed.

Lemma untouched_refl (k : string) (w : world) : untouched k w w.
Proof. split; [done|]. exists []. by rewrite app_nil_r. Qed.

Lemma untouched_trans (k : string) (w1 w2 w3 : world) :
  untouched k w1 w2 -> untouched k w2 w3 -> untouched k w1 w3.
Proof.
  intros [Hdb12 (cs1 & Hlog12 & Hcs1)] [Hdb23 (cs2 & Hlog23 & Hcs2)].
  split; [congruence|].
  exists (cs1 ++ cs2). split.
  - by rewrite Hlog23, Hlog12, app_assoc.
  - by apply Forall_app.
Qed.

Lemma has_exceeded_untouched (k identifier : string) (w : world) :
  k <> identifier ->
  untouched k w (snd (has_exceeded_rate_limit self identifier w)).
Proof.
  intros Hne. split; [by apply has_exceeded_frame|].
  destruct (db w !! identifier) as [c|] eqn:Hc.
  - destruct (Z.lt_ge_cases (value c) (limit self)) as [Hlt|Hge].
    + rewrite (has_exceeded_under _ _ _ c) by done. cbn.
      eexists. split; [done|]. repeat constructor; cbn; congruence.
    + rewrite (has_exceeded_over _ _ _ c) by done. cbn.
      eexists. split; [done|]. repeat constructor; cbn; congruence.
  - rewrite has_exceeded_absent by done. cbn.
    eexists. split; [done|]. repeat constructor; cbn; congruence.
Qed.

Lemma and_exceeded_untouched (k : string) (x : option string) (w : world) :
  x <> Some k -> untouched k w (snd (and_exceeded self x w)).
Proof.
  intros Hx. unfold and_exceeded.
  destruct x as [s|]; [|apply untouched_refl].
  destruct (truthy (Some s)); [|apply untouched_refl].
  apply has_exceeded_untouched. congruence.
Qed.

Lemma call_same_identifiers (s1 s2 : Scope) (r1 r2 : Receive) (sd1 sd2 : Send)
    (w : world) :
  scope_type s1 = scope_type s2 ->
  client_ip_of s1 = client_ip_of s2 ->
  headers s1 = headers s2 ->
  snd (call self s1 r1 sd1 w) = snd (call self s2 r2 sd2 w) /\
  rejected (fst (call self s1 r1 sd1 w)) = rejected (fst (call self s2 r2 sd2 w)).
Proof.
  intros Hty Hip Hh. unfold call, ret, bind. rewrite Hty, Hip, Hh.
  destruct (negb _); [done|].
  destruct (client_ip_of s2) as [client_ip|e]; [|done].
  destruct (and_exceeded self client_ip w) as [[|] w1]; [done|].
  by destruct (and_exceeded self _ w1) as [[|] w2].
Qed.

Lemma client_ip_forwarded (p : string * Z) (hs : list (string * string))
    (v : string) :
  headers_getitem hs "x-forwarded-for" = Some v ->
  client_ip_of (http_scope (Some p) hs) = Ok (Some v).
Proof.
  intros Hv. destruct p as [host port].
  unfold client_ip_of, peer_default, headers_get. cbn. by rewrite Hv.
Qed.

(** X4. When a forwarded-for header is present, its value is the address
    identifier and the peer address plays no part: two requests with the
    same headers from any two peers run the same rate checks, leave the same
    store and are both rejected or both let through. *)
Theorem forwarded_for_overrides_peer
    (p1 p2 : string * Z) (hs : list (string * string)) (v : string)
    (r1 r2 : Receive) (sd1 sd2 : Send) (w : world) :
  headers_getitem hs "x-forwarded-for" = Some v ->
  client_ip_of (http_scope (Some p1) hs) = Ok (Some v) /\
  snd (call self (http_scope (Some p1) hs) r1 sd1 w) =
    snd (call self (http_scope (Some p2) hs) r2 sd2 w) /\
  rejected (fst (call self (http_scope (Some p1) hs) r1 sd1 w)) =
    rejected (fst (call self (http_scope (Some p2) hs) r2 sd2 w)).
Proof.
  intros Hv. split; [by apply client_ip_forwarded|].
  apply call_same_identifiers; [done| |done].
  by rewrite !(client_ip_forwarded _ _ v).
Qed.

(** X5. Without a forwarded-for header, two peers whose host strings start
    with the same character are one rate-limiting domain: their requests
    with the same headers run the same rate checks, leave the same store and
    are both rejected or both let through. *)
Theorem peers_share_first_character
    (a : ascii) (h1 h2 : string) (port1 port2 : Z)
    (hs : list (string * string))
    (r1 r2 : Receive) (sd1 sd2 : Send) (w : world) :
  headers_getitem hs "x-forwarded-for" = None ->
  snd (call self (http_scope (Some (String a h1, port1)) hs) r1 sd1 w) =
    snd (call self (http_scope (Some (String a h2, port2)) hs) r2 sd2 w) /\
  rejected (fst (call self (http_scope (Some (String a h1, port1)) hs) r1 sd1 w)) =
    rejected (fst (call self (http_scope (Some (String a h2, port2)) hs) r2 sd2 w)).
Proof.
  intros Hnone.
  apply call_same_identifiers; [done| |done].
  rewrite (client_ip_without_forwarded_for
             (http_scope (Some (String a h1, port1)) hs) a h1 port1 Hnone eq_refl).
  by rewrite (client_ip_without_forwarded_for
                (http_scope (Some (String a h2, port2)) hs) a h2 port2 Hnone eq_refl).
Qed.

(** X6. A forwarded-for header with an empty value switches the address
    check off, whatever the peer address and its counter are: the call is
    decided by the token check alone, and without a token it goes downstream
    with the store untouched. *)
Theorem empty_forwarded_for_skips_address_check
    (scope : Scope) (receive : Receive) (send : Send) (w : world)
    (p : string * Z) :
  scope_type scope = "http" ->
  client scope = Some p ->
  headers_getitem (headers scope) "x-forwarded-for" = Some "" ->
  (truthy (headers_get (headers scope) (token_header self) None) = false ->
   call self scope receive send w =
     (Downstream (app self) scope receive send, w)) /\
  (forall token,
     headers_get (headers scope) (token_header self) None = Some token ->
     token <> "" ->
     call self scope receive send w =
       (if fst (has_exceeded_rate_limit self token w)
        then Respond ThrottlingResponse scope receive send
        else Downstream (app self) scope receive send,
        snd (has_exceeded_rate_limit self token w))).
Proof.
  intros Hty Hc Hfwd.
  assert (client_ip_of scope = Ok (Some "")) as Hip.
  { destruct p as [host port].
    unfold client_ip_of, peer_default, headers_get. by rewrite Hc, Hfwd. }
  split.
  - intros Htok. rewrite (call_http scope receive send w _ Hty Hip).
    rewrite and_exceeded_falsy by done.
    by rewrite and_exceeded_falsy.
  - intros token Htok Hne. rewrite (call_http scope receive send w _ Hty Hip).
    rewrite and_exceeded_falsy by done.
    rewrite Htok, and_exceeded_truthy by done.
    by destruct (has_exceeded_rate_limit self token w) as [[|] w2].
Qed.

(** X7. A call reads and writes only under its own two identifiers: for
    every key that is neither the address identifier nor the token of the
    request, the record is as before and no command of the call addresses
    the key. *)
Theorem call_touches_only_its_identifiers
    (scope : Scope) (receive : Receive) (send : Send) (w : world) (k : string) :
  client_ip_of scope <> Ok (Some k) ->
  headers_get (headers scope) (token_header self) None <> Some k ->
  db (snd (call self scope receive send w)) !! k = db w !! k /\
  Forall (fun cmd => cmd_key cmd <> k)
         (issued w (snd (call self scope receive send w))).
Proof.
  intros Hip Htok.
  assert (untouched k w (snd (call self scope receive send w))) as [Hdb Hlog].
  { unfold call, ret, bind.
    destruct (negb _); [apply untouched_refl|].
    destruct (client_ip_of scope) as [client_ip|e]; [|apply untouched_refl].
    assert (client_ip <> Some k) as Hne by congruence.
    pose proof (and_exceeded_untouched k client_ip w Hne) as H1.
    destruct (and_exceeded self client_ip w) as [[|] w1]; [done|].
    pose proof (and_exceeded_untouched k _ w1 Htok) as H2.
    destruct (and_exceeded self _ w1) as [[|] w2];
      exact (untouched_trans k w w1 w2 H1 H2). }
  split; [done|].
  destruct Hlog as (cs & Hcs & Hall).
  unfold issued. rewrite Hcs. by rewrite drop_app_length.
Qed.

(** X8. A call never removes a record and never changes an expiry: every
    record present before the call is present after it with the same time
    to live, and its count has not gone down nor risen above both its old
    value and the limit. *)
Theorem call_keeps_records
    (scope : Scope) (receive : Receive) (send : Send) (w : world)
    (k : string) (c : counter) :
  db w !! k = Some c ->
  exists c',
    db (snd (call self scope receive send w)) !! k = Some c' /\
    ttl c' = ttl c /\
    value c <= value c' <= Z.max (value c) (limit self).
Proof.
  revert k c. change (kept self w (snd (call self scope receive send w))).
  apply (call_preserves (kept self w)); [|apply kept_refl].
  intros identifier w' Hw'.
  exact (kept_trans w w' _ Hw' (has_exceeded_kept identifier w')).
Qed.

(** X9. Starting from an empty store, after any sequence of requests served
    one after the other every record in the store has the expiry [window]
    and a count between 1 and [max 1 limit]. *)
Theorem served_store_well_counted
    (requests : list (Scope * Receive * Send)) (k : string) (c : counter) :
  db (snd (serve self requests empty_world)) !! k = Some c ->
  ttl c = Some (window self) /\ 1 <= value c <= Z.max 1 (limit self).
Proof.
  revert k c.
  change (well_counted self (snd (serve self requests empty_world))).
  apply (serve_preserves (well_counted self)).
  - intros identifier w. apply has_exceeded_well_counted.
  - intros k c. cbn. by rewrite lookup_empty.
Qed.

(** X10. A request rejected by the token check has already been counted
    against its address: when the address check allows and the token is at
    or above the limit, the call ends in the rejection response, the
    address record has advanced by one check and the token record is as it
    was. *)
Theorem token_denial_after_address_counted
    (scope : Scope) (receive : Receive) (send : Send) (w : world)
    (ip token : string) (ct : counter) :
  scope_type scope = "http" ->
  client_ip_of scope = Ok (Some ip) ->
  ip <> "" ->
  headers_get (headers scope) (token_header self) None = Some token ->
  token <> "" ->
  ip <> token ->
  quota self (db w !! ip) <> 0%nat ->
  db w !! token = Some ct ->
  limit self <= value ct ->
  fst (call self scope receive send w) =
    Respond ThrottlingResponse scope receive send /\
  db (snd (call self scope receive send w)) !! ip =
    counted self (db w !! ip) 1 /\
  db (snd (call self scope receive send w)) !! token = Some ct.
Proof.
  intros Hty Hip Hne Htok Htne Hdiff Hq Hct Hge.
  rewrite (call_http scope receive send w _ Hty Hip).
  rewrite Htok, !and_exceeded_truthy by done.
  destruct (check_step self ip w) as (w1 & Hstep & Hdb1).
  rewrite Hstep, bool_decide_eq_false_2 by done.
  assert (db w1 !! token = Some ct) as Hct1.
  { by rewrite Hdb1, lookup_partial_alter_ne. }
  rewrite (has_exceeded_over self token w1 ct Hct1 Hge). cbn.
  split; [done|]. split; [|done].
  by rewrite Hdb1, lookup_partial_alter_eq.
Qed.

(** X11. A request whose token is the same string as its address identifier
    is counted twice under that one key: from no record, with a limit of 2
    or more it goes downstream leaving the count 2, and with a limit of 1 or
    less it is rejected by its own token check, leaving the count 1. *)
Theorem same_string_counted_twice
    (scope : Scope) (receive : Receive) (send : Send) (w : world) (s : string) :
  scope_type scope = "http" ->
  client_ip_of scope = Ok (Some s) ->
  headers_get (headers scope) (token_header self) None = Some s ->
  s <> "" ->
  db w !! s = None ->
  (2 <= limit self ->
   call self scope receive send w =
     (Downstream (app self) scope receive send,
      World (<[s := Counter 2 (Some (window self))]> (db w))
            (log w ++ [GET s; SET s 1 (window self); GET s; INCR s]))) /\
  (limit self <= 1 ->
   call self scope receive send w =
     (Respond ThrottlingResponse scope receive send,
      World (<[s := Counter 1 (Some (window self))]> (db w))
            (log w ++ [GET s; SET s 1 (window self); GET s]))).
Proof.
  intros Hty Hip Htok Hne Hnone.
  rewrite (call_http scope receive send w _ Hty Hip).
  rewrite Htok, !and_exceeded_truthy by done.
  rewrite (has_exceeded_absent self s w Hnone).
  set (c1 := Counter 1 (Some (window self))).
  set (w1 := World _ _).
  assert (db w1 !! s = Some c1) as Hc1 by apply lookup_insert_eq.
  split; intros Hlim.
  - rewrite (has_exceeded_under self s w1 c1 Hc1) by (cbn; lia).
    subst w1. cbn. by rewrite insert_insert_eq, <- app_assoc.
  - rewrite (has_exceeded_over self s w1 c1 Hc1) by (cbn; lia).
    subst w1. cbn. by rewrite <- app_assoc.
Qed.

End CallAndStore.

(** ** The further properties at sample inputs *)

Lemma burst_record_witness :
  db (snd (burst (sample_middleware 2) "tok" 3 busy_world)) !! "tok" =
    Some (Counter 2 (Some 60)) /\
  "10.0.0.7" <> "tok" /\
  db (snd (burst (sample_middleware 2) "tok" 3 busy_world)) !! "10.0.0.7" =
    Some (Counter 2 (Some 60)).
Proof.
  assert ("10.0.0.7" <> "tok") as Hne by discriminate.
  destruct (burst_record (sample_middleware 2) "tok" 3 busy_world)
    as [Hrec Hframe].
  split; [exact Hrec|]. split; [exact Hne|].
  exact (Hframe "10.0.0.7" Hne).
Defined.

Lemma nonpositive_limit_admits_first_witness :
  limit (sample_middleware 0) <= 0 /\
  db empty_world !! "1.2.3.4" = None /\
  fst (burst (sample_middleware 0) "1.2.3.4" 3 empty_world) =
    [false; true; true] /\
  db (snd (burst (sample_middleware 0) "1.2.3.4" 3 empty_world)) !! "1.2.3.4" =
    Some (Counter 1 (Some 60)).
Proof.
  assert (limit (sample_middleware 0) <= 0) as Hlim by (cbn; lia).
  assert (db empty_world !! "1.2.3.4" = None) as Hnone by reflexivity.
  split; [exact Hlim|]. split; [exact Hnone|].
  exact (nonpositive_limit_admits_first (sample_middleware 0) "1.2.3.4"
           empty_world Hlim Hnone 2%nat).
Defined.

Lemma forwarded_for_overrides_peer_witness :
  headers_getitem [("x-forwarded-for", "abc")] "x-forwarded-for" = Some "abc" /\
  snd (call (sample_middleware 2)
         (http_scope (Some ("10.0.0.1", 40000)) [("x-forwarded-for", "abc")])
         "receive" "send" busy_world) =
    snd (call (sample_middleware 2)
           (http_scope (Some ("192.168.1.5", 40001)) [("x-forwarded-for", "abc")])
           "receive" "send" busy_world).
Proof.
  assert (headers_getitem [("x-forwarded-for", "abc")] "x-forwarded-for" =
            Some "abc") as Hv by reflexivity.
  split; [exact Hv|].
  exact (proj1 (proj2 (forwarded_for_overrides_peer (sample_middleware 2)
                         ("10.0.0.1", 40000) ("192.168.1.5", 40001)
                         [("x-forwarded-for", "abc")] "abc"
                         "receive" "receive" "send" "send" busy_world Hv))).
Defined.

Lemma peers_share_first_character_witness :
  headers_getitem [] "x-forwarded-for" = None /\
  snd (call (sample_middleware 2) (http_scope (Some ("127.0.0.1", 51234)) [])
         "receive" "send" empty_world) =
    snd (call (sample_middleware 2) (http_scope (Some ("10.0.0.1", 40000)) [])
           "receive" "send" empty_world).
Proof.
  assert (headers_getitem [] "x-forwarded-for" = None) as Hnone by reflexivity.
  split; [exact Hnone|].
  exact (proj1 (peers_share_first_character (sample_middleware 2)
                  "1"%char "27.0.0.1" "0.0.0.1" 51234 40000 []
                  "receive" "receive" "send" "send" empty_world Hnone)).
Defined.

Lemma empty_forwarded_for_skips_address_check_witness :
  db busy_world !! "10.0.0.7" = Some (Counter 2 (Some 60)) /\
  headers_getitem (headers scope_empty_forwarded_no_token) "x-forwarded-for" =
    Some "" /\
  call (sample_middleware 2) scope_empty_forwarded_no_token
       "receive" "send" busy_world =
    (Downstream "downstream" scope_empty_forwarded_no_token "receive" "send",
     busy_world) /\
  fst (call (sample_middleware 2) scope_empty_forwarded
         "receive" "send" busy_world) =
    Downstream "downstream" scope_empty_forwarded "receive" "send".
Proof.
  split; [reflexivity|]. split; [reflexivity|]. split.
  - exact (proj1 (empty_forwarded_for_skips_address_check (sample_middleware 2)
                    scope_empty_forwarded_no_token "receive" "send" busy_world
                    ("10.0.0.7", 40002) eq_refl eq_refl eq_refl) eq_refl).
  - assert ("tok" <> "") as Hne by discriminate.
    rewrite (proj2 (empty_forwarded_for_skips_address_check (sample_middleware 2)
                      scope_empty_forwarded "receive" "send" busy_world
                      ("10.0.0.7", 40002) eq_refl eq_refl eq_refl)
               "tok" eq_refl Hne).
    reflexivity.
Defined.

Lemma call_touches_only_its_identifiers_witness :
  client_ip_of scope_new_address <> Ok (Some "10.0.0.7") /\
  headers_get (headers scope_new_address) "Authorization" None <>
    Some "10.0.0.7" /\
  db (snd (call (sample_middleware 2) scope_new_address
             "receive" "send" busy_world)) !! "10.0.0.7" =
    Some (Counter 2 (Some 60)).
Proof.
  assert (client_ip_of scope_new_address <> Ok (Some "10.0.0.7")) as Hip
    by discriminate.
  assert (headers_get (headers scope_new_address)
            (token_header (sample_middleware 2)) None <> Some "10.0.0.7")
    as Htok by discriminate.
  split; [exact Hip|]. split; [exact Htok|].
  exact (proj1 (call_touches_only_its_identifiers (sample_middleware 2)
                  scope_new_address "receive" "send" busy_world "10.0.0.7"
                  Hip Htok)).
Defined.

Lemma call_keeps_records_witness :
  db busy_world !! "tok" = Some (Counter 1 (Some 60)) /\
  exists c',
    db (snd (call (sample_middleware 3) scope_busy "receive" "send" busy_world))
      !! "tok" = Some c' /\
    ttl c' = Some 60 /\ 1 <= value c' <= 3.
Proof.
  assert (db busy_world !! "tok" = Some (Counter 1 (Some 60))) as Hc
    by reflexivity.
  split; [exact Hc|].
  exact (call_keeps_records (sample_middleware 3) scope_busy "receive" "send"
           busy_world "tok" (Counter 1 (Some 60)) Hc).
Defined.

Lemma served_store_well_counted_witness :
  db (snd (serve (sample_middleware 5) sample_requests empty_world)) !! "abc" =
    Some (Counter 2 (Some 60)) /\
  ttl (Counter 2 (Some 60)) = Some 60 /\
  1 <= value (Counter 2 (Some 60)) <= Z.max 1 5.
Proof.
  assert (db (snd (serve (sample_middleware 5) sample_requests empty_world))
            !! "abc" = Some (Counter 2 (Some 60))) as Hc
    by (vm_compute; reflexivity).
  split; [exact Hc|].
  exact (served_store_well_counted (sample_middleware 5) sample_requests
           "abc" (Counter 2 (Some 60)) Hc).
Defined.

Lemma token_denial_after_address_counted_witness :
  client_ip_of scope_new_address = Ok (Some "10.0.0.9") /\
  headers_get (headers scope_new_address) "Authorization" None = Some "tok" /\
  db busy_world !! "10.0.0.9" = None /\
  db busy_world !! "tok" = Some (Counter 1 (Some 60)) /\
  fst (call (sample_middleware 1) scope_new_address "receive" "send" busy_world) =
    Respond ThrottlingResponse scope_new_address "receive" "send" /\
  db (snd (call (sample_middleware 1) scope_new_address
             "receive" "send" busy_world)) !! "10.0.0.9" =
    Some (Counter 1 (Some 60)) /\
  db (snd (call (sample_middleware 1) scope_new_address
             "receive" "send" busy_world)) !! "tok" =
    Some (Counter 1 (Some 60)).
Proof.
  assert ("10.0.0.9" <> "") as Hne by discriminate.
  assert ("tok" <> "") as Htne by discriminate.
  assert ("10.0.0.9" <> "tok") as Hdiff by discriminate.
  assert (quota (sample_middleware 1) (db busy_world !! "10.0.0.9") <> 0%nat)
    as Hq by (vm_compute; discriminate).
  assert (limit (sample_middleware 1) <= value (Counter 1 (Some 60))) as Hge
    by (cbn; lia).
  split; [reflexivity|]. split; [reflexivity|].
  split; [reflexivity|]. split; [reflexivity|].
  exact (token_denial_after_address_counted (sample_middleware 1)
           scope_new_address "receive" "send" busy_world "10.0.0.9" "tok"
           (Counter 1 (Some 60)) eq_refl eq_refl Hne eq_refl Htne Hdiff Hq
           eq_refl Hge).
Defined.

Lemma same_string_counted_twice_witness :
  client_ip_of scope_same_string = Ok (Some "abc") /\
  headers_get (headers scope_same_string) "Authorization" None = Some "abc" /\
  fst (call (sample_middleware 2) scope_same_string "receive" "send" empty_world) =
    Downstream "downstream" scope_same_string "receive" "send" /\
  fst (call (sample_middleware 1) scope_same_string "receive" "send" empty_world) =
    Respond ThrottlingResponse scope_same_string "receive" "send".
Proof.
  assert ("abc" <> "") as Hne by discriminate.
  split; [reflexivity|]. split; [reflexivity|]. split.
  - rewrite (proj1 (same_string_counted_twice (sample_middleware 2)
                      scope_same_string "receive" "send" empty_world "abc"
                      eq_refl eq_refl eq_refl Hne eq_refl)).
    + reflexivity.
    + cbn. lia.
  - rewrite (proj2 (same_string_counted_twice (sample_middleware 1)
                      scope_same_string "receive" "send" empty_world "abc"
                      eq_refl eq_refl eq_refl Hne eq_refl)).
    + reflexivity.
    + cbn. lia.
Defined.

Lemma call_without_client_raises_witness :
  scope_type scope_no_client_forwarded = "http" /\
  client scope_no_client_forwarded = None /\
  headers_getitem (headers scope_no_client_forwarded) "x-forwarded-for" =
    Some "10.0.0.7" /\
  call (sample_middleware 2) scope_no_client_forwarded
       "receive" "send" busy_world =
    (Raises TypeError, busy_world).
Proof.
  split; [reflexivity|]. split; [reflexivity|]. split; [reflexivity|].
  exact (call_without_client_raises (sample_middleware 2)
           scope_no_client_forwarded "receive" "send" busy_world
           eq_refl eq_refl).
Defined.
